(** * FacePoke emotion presets: from a preset's declared edits to store calls

    The client component [EmotionPresets] exists in three versions in the
    repository (one under [client/src/components], two later revisions that
    carry semantic parameters next to the displacement vector).  Each one
    holds a static table [EMOTION_PRESETS] and a click handler that walks the
    landmarks of the chosen preset and calls the store's [modifyImage] once
    per landmark.

    JavaScript numbers are IEEE 754 binary64 values: they are embedded as
    Rocq's primitive floats, so [Math.sqrt], [*] and [+] are the kernel's
    [sqrt], [mul] and [add] on the same 64-bit values. *)

From Stdlib Require Import Floats.
From stdpp Require Import gmap strings list.

Set Warnings "-inexact-float".

(** ** Types of [../types] as the component uses them

    [LandmarkGroup] and [ActionMode] are unions of string literals; at run
    time their values are strings. *)

Abbreviation LandmarkGroup := string.
Abbreviation ActionMode := string.

Definition PRIMARY : ActionMode := "PRIMARY".

(** [{ x: number; y: number; z: number }] *)
Record Vector := vec { x : float; y : float; z : float }.

(** The optional numeric keys a landmark of a preset may declare
    ([aaa?: number; eee?: number; ...]). *)
Inductive ParamName :=
  | aaa | eee | eyebrow | eyes | pupil_x | pupil_y
  | rotate_pitch | rotate_roll | rotate_yaw.

#[global] Instance ParamName_eq_dec : EqDecision ParamName.
Proof. solve_decision. Defined.

Definition ParamName_code (k : ParamName) : positive :=
  match k with
  | aaa => 1 | eee => 2 | eyebrow => 3 | eyes => 4 | pupil_x => 5
  | pupil_y => 6 | rotate_pitch => 7 | rotate_roll => 8 | rotate_yaw => 9
  end%positive.

Definition ParamName_decode (p : positive) : option ParamName :=
  match p with
  | 1 => Some aaa | 2 => Some eee | 3 => Some eyebrow | 4 => Some eyes
  | 5 => Some pupil_x | 6 => Some pupil_y | 7 => Some rotate_pitch
  | 8 => Some rotate_roll | 9 => Some rotate_yaw | _ => None
  end%positive.

#[global] Program Instance ParamName_countable : Countable ParamName :=
  inj_countable ParamName_code ParamName_decode _.
Next Obligation. by intros []. Qed.

(** The optional keys that are present on an object, with their values. *)
Abbreviation Params := (gmap ParamName float).

(** One element of [EmotionPreset.landmarks]: the two mandatory keys and
    whatever optional keys the literal declares. *)
Record PresetLandmark := {
  group : LandmarkGroup;
  vector : Vector;
  declared : Params;
}.

(** [interface EmotionPreset] *)
Record EmotionPreset := {
  name : string;
  landmarks : list PresetLandmark;
  description : option string;
}.

(** The object passed as [landmark] to [modifyImage]:
    [{ group, distance, vector, ...params }].  It is the record the
    specification calls an Edit. *)
Record Edit := {
  edit_group : LandmarkGroup;
  distance : float;
  edit_vector : Vector;
  params : Params;
}.

(** The argument of [modifyImage]: [{ landmark, vector, mode }]. *)
Record ModifyImageParams := {
  landmark : Edit;
  top_vector : Vector;
  mode : ActionMode;
}.

(** JavaScript's [!v] for a value that is a string, [null] or [undefined]. *)
Definition falsy (v : option string) : bool :=
  match v with
  | None => true
  | Some s => bool_decide (s = "")
  end.

(** [xs.forEach(f)]: [f] runs on every element, first to last. *)
Definition forEach {A Store : Type} (xs : list A) (f : A → Store → Store)
    (s : Store) : Store :=
  foldl (λ acc a, f a acc) s xs.

(** A rendered button: React key, tooltip, label and click handler. *)
Record Button (Store : Type) := {
  key : string;
  title : option string;
  label : string;
  onClick : Store → Store;
}.
Arguments key {Store} _.
Arguments title {Store} _.
Arguments label {Store} _.
Arguments onClick {Store} _.

(** Literals of the preset tables: [lm g v [prop k1 v1; ...]] is the object
    literal [{ group: g, vector: v, k1: v1, ... }]; no literal of the tables
    repeats a key. *)
Definition prop (k : ParamName) (v : float) : ParamName * float := (k, v).

Definition lm (g : LandmarkGroup) (v : Vector) (ps : list (ParamName * float))
    : PresetLandmark :=
  {| group := g; vector := v; declared := list_to_map ps |}.

Definition preset (n : string) (ls : list PresetLandmark) (d : string)
    : EmotionPreset :=
  {| name := n; landmarks := ls; description := Some d |}.

(** ** [client/src/components/EmotionPresets.tsx]

    The first version: a landmark of a preset is [{ group, vector }]. *)
Module Client.

Definition EMOTION_PRESETS : list EmotionPreset := [
  preset "😠 Angry" [
    lm "background" (vec 0 0.3 0) [];
    lm "leftEyebrow" (vec 0 0.3 0) [];
    lm "rightEyebrow" (vec 0 0.3 0) [];
    lm "leftEye" (vec 0 0.3 0) [];
    lm "rightEye" (vec 0 0.3 0) [];
    lm "lips" (vec 0 0.3 0) []
  ] "Tilted down, intense gaze";
  preset "😢 Sad" [
    lm "background" (vec 0 0.3 0) [];
    lm "leftEyebrow" (vec 0 (-0.3) 0) [];
    lm "rightEyebrow" (vec 0 (-0.3) 0) [];
    lm "lips" (vec 0 0.3 0) []
  ] "Looking down, slight tilt";
  preset "😮 Surprised" [
    lm "background" (vec 0 (-0.3) 0) [];
    lm "leftEyebrow" (vec 0 (-0.4) 0) [];
    lm "rightEyebrow" (vec 0 (-0.4) 0) [];
    lm "leftEye" (vec 0 (-0.3) 0) [];
    lm "rightEye" (vec 0 (-0.3) 0) [];
    lm "lips" (vec 0 (-0.4) 0) []
  ] "Looking up, wide-eyed";
  preset "😨 Scared" [
    lm "background" (vec 0.2 (-0.3) 0) [];
    lm "leftEyebrow" (vec 0 (-0.4) 0) [];
    lm "rightEyebrow" (vec 0 (-0.4) 0) [];
    lm "leftEye" (vec 0 (-0.3) 0) [];
    lm "rightEye" (vec 0 (-0.3) 0) [];
    lm "lips" (vec 0 (-0.3) 0) []
  ] "Tilted back, fearful expression";
  preset "🤔 Thinking" [
    lm "faceOval" (vec 0.3 0 0) [];
    lm "leftEyebrow" (vec 0 (-0.2) 0) [];
    lm "lips" (vec 0.2 0 0) []
  ] "Tilted, contemplative look";
  preset "😊 Happy" [
    lm "background" (vec 0 (-0.1) 0) [];
    lm "leftEyebrow" (vec 0 (-0.2) 0) [];
    lm "rightEyebrow" (vec 0 (-0.2) 0) [];
    lm "leftEye" (vec 0 0.2 0) [];
    lm "rightEye" (vec 0 0.2 0) [];
    lm "lips" (vec 0.3 (-0.2) 0) []
  ] "Cheerful expression"
].

Section Component.
Context {Store : Type}.
(** [const { modifyImage } = useMainStore()] and
    [useMainStore(s => s.previewImage)]: the store hook lives in
    [../hooks/useMainStore]; the component takes these two members of it. *)
Variable modifyImage : ModifyImageParams → Store → Store.
Variable previewImage : Store → option string.

(** The object literal handed to [modifyImage] for one element; the
    callback destructures [{ group, vector }] and reads nothing else. *)
Definition request (l : PresetLandmark) : ModifyImageParams :=
  let group := group l in
  let vector := vector l in
  {| landmark := {|
       edit_group := group;
       distance := PrimFloat.sqrt (x vector * x vector + y vector * y vector);
       edit_vector := vector;
       params := ∅
     |};
     top_vector := vector;
     mode := PRIMARY |}.

(** [onClick]: [emotion.landmarks.forEach(({ group, vector }) => modifyImage({...}))] *)
Definition handleClick (emotion : EmotionPreset) : Store → Store :=
  forEach (landmarks emotion) (λ l, modifyImage (request l)).

(** The component: [null] while the store holds no preview image, otherwise
    one button per preset of the table. *)
Definition EmotionPresets (s : Store) : option (list (Button Store)) :=
  if falsy (previewImage s) then None
  else Some ((λ emotion, {|
               key := name emotion;
               onClick := handleClick emotion;
               title := description emotion;
               label := name emotion
             |}) <$> EMOTION_PRESETS).

End Component.

End Client.

(** ** The version with semantic parameters (first table)

    A landmark may declare any of the nine optional keys; the callback
    splits it as [const { group, vector, ...params } = landmark] and spreads
    [params] into the [landmark] object of the call. *)
Module Part000.

Definition EMOTION_PRESETS : list EmotionPreset := [
  preset "😠 Angry" [
    lm "background" (vec 0 0 0) [prop rotate_pitch 10; prop rotate_yaw 0; prop rotate_roll 0];
    lm "leftEyebrow" (vec 0 0 0) [prop eyebrow (-8)];
    lm "rightEyebrow" (vec 0 0 0) [prop eyebrow (-8)];
    lm "leftEye" (vec 0 0 0) [prop eyes (-10)];
    lm "rightEye" (vec 0 0 0) [prop eyes (-10)];
    lm "lips" (vec 0 0 0) [prop aaa (-20); prop eee (-10)]
  ] "Furrowed eyebrows, narrowed eyes, and a tense, downturned mouth";
  preset "😢 Sad" [
    lm "background" (vec 0 0 0) [prop rotate_pitch 15; prop rotate_yaw 0; prop rotate_roll 0];
    lm "leftEyebrow" (vec 0 0 0) [prop eyebrow 5];
    lm "rightEyebrow" (vec 0 0 0) [prop eyebrow 5];
    lm "leftEye" (vec 0 0 0) [prop eyes (-5)];
    lm "rightEye" (vec 0 0 0) [prop eyes (-5)];
    lm "lips" (vec 0 0 0) [prop aaa (-10); prop eee (-5)]
  ] "Drooping features with a downturned mouth";
  preset "😮 Surprised" [
    lm "background" (vec 0 0 0) [prop rotate_pitch (-10); prop rotate_yaw 0; prop rotate_roll 0];
    lm "leftEyebrow" (vec 0 0 0) [prop eyebrow 12];
    lm "rightEyebrow" (vec 0 0 0) [prop eyebrow 12];
    lm "leftEye" (vec 0 0 0) [prop eyes 15];
    lm "rightEye" (vec 0 0 0) [prop eyes 15];
    lm "lips" (vec 0 0 0) [prop aaa 80; prop eee 0]
  ] "Raised eyebrows, wide open eyes, and an open mouth";
  preset "😨 Scared" [
    lm "background" (vec 0 0 0) [prop rotate_pitch (-15); prop rotate_yaw 5; prop rotate_roll 0];
    lm "leftEyebrow" (vec 0 0 0) [prop eyebrow 10];
    lm "rightEyebrow" (vec 0 0 0) [prop eyebrow 10];
    lm "leftEye" (vec 0 0 0) [prop eyes 12; prop pupil_x 5; prop pupil_y 5];
    lm "rightEye" (vec 0 0 0) [prop eyes 12; prop pupil_x 5; prop pupil_y 5];
    lm "lips" (vec 0 0 0) [prop aaa 30; prop eee (-5)]
  ] "Wide eyes, raised eyebrows, and a tense mouth conveying fear";
  preset "🤔 Thinking" [
    lm "background" (vec 0.038 (-0.038) 0) [prop rotate_pitch (-18.6); prop rotate_yaw (-25.15); prop rotate_roll 0];
    lm "leftEyebrow" (vec 0.12 (-0.42) 0) [prop eyebrow 13.03];
    lm "lips" (vec (-0.09) 0.31 0) [prop aaa (-1.52); prop eee (-5.89)]
  ] "A contemplative look with a subtle head tilt and smirk";
  preset "😊 Happy" [
    lm "background" (vec 0.038 (-0.038) 0) [prop rotate_pitch (-3); prop rotate_yaw (-5); prop rotate_roll 0];
    lm "leftEyebrow" (vec 0.54 (-0.45) 0) [prop eyebrow 13];
    lm "rightEyebrow" (vec 0.54 (-0.45) 0) [prop eyebrow 13];
    lm "leftEye" (vec 0.045 (-0.39) 0) [prop eyes 2.5];
    lm "lips" (vec 0.41 0.21 0) [prop aaa 13; prop eee 12]
  ] "A broad smile with relaxed, cheerful features"
].

Section Component.
Context {Store : Type}.
Variable modifyImage : ModifyImageParams → Store → Store.
Variable previewImage : Store → option string.

(** The rest object [params] holds every own key other than [group] and
    [vector]; spreading it last adds exactly those keys, none of which is
    [group], [distance] or [vector]. *)
Definition request (landmark : PresetLandmark) : ModifyImageParams :=
  let group := group landmark in
  let vector := vector landmark in
  let params := declared landmark in
  {| landmark := {|
       edit_group := group;
       distance := PrimFloat.sqrt (x vector * x vector + y vector * y vector);
       edit_vector := vector;
       params := params
     |};
     top_vector := vector;
     mode := PRIMARY |}.

(** [onClick]: [emotion.landmarks.forEach((landmark) => { ...; modifyImage({...}) })] *)
Definition handleClick (emotion : EmotionPreset) : Store → Store :=
  forEach (landmarks emotion) (λ landmark, modifyImage (request landmark)).

(** The component: [null] while the store holds no preview image, otherwise
    one button per preset of the table. *)
Definition EmotionPresets (s : Store) : option (list (Button Store)) :=
  if falsy (previewImage s) then None
  else Some ((λ emotion, {|
               key := name emotion;
               onClick := handleClick emotion;
               title := description emotion;
               label := name emotion
             |}) <$> EMOTION_PRESETS).

End Component.

End Part000.

(** ** The version with semantic parameters (second table)

    Same component text as the previous one; only the table differs. *)
Module Part001.

Definition EMOTION_PRESETS : list EmotionPreset := [
  preset "😠 Angry" [
    lm "background" (vec 0.12 (-0.04) 0) [];
    lm "leftEyebrow" (vec 0.05 0.15 0) [prop eyebrow (-1.29)];
    lm "leftEye" (vec 0.18 (-0.25) 0) [prop eyes (-1.08); prop pupil_x 5.5; prop pupil_y 0];
    lm "lips" (vec (-0.38) 0.36 0) [prop aaa (-10.08); prop eee (-16.02)]
  ] "Furrowed eyebrows, narrowed eyes, and a tense, downturned mouth";
  preset "😢 Sad" [
    lm "background" (vec (-0.11) 0.12 0) [];
    lm "leftEyebrow" (vec 0.01 0.16 0) [prop eyebrow (-1.68)];
    lm "leftEye" (vec (-0.2334098950897014) 0.11482211814970011 0) [prop eyes (-10); prop pupil_x (-7)];
    lm "lips" (vec 0 0.47 0) [prop aaa (-26); prop eee (-2)]
  ] "Drooping features with a downturned mouth";
  preset "😮 Surprised" [
    lm "background" (vec (-0.03) 0.06 0) [];
    lm "leftEyebrow" (vec 0.05 (-0.48) 0) [prop eyebrow 14.7];
    lm "leftEye" (vec 0.01 (-0.43) 0) [prop eyes 3.5; prop pupil_x 0.56; prop pupil_y 0];
    lm "lips" (vec 0.02 (-0.41) 0) [prop aaa 107; prop eee (-1.76)]
  ] "Raised eyebrows, wide open eyes, and an open mouth";
  preset "🤔 Thinking" [
    lm "background" (vec 0.5 (-0.3) 0) [];
    lm "leftEyebrow" (vec 0.12 (-0.42) 0) [prop eyebrow 13.03];
    lm "lips" (vec (-0.09) 0.31 0) [prop aaa (-1.52); prop eee (-5.89)]
  ] "A contemplative look with a subtle head tilt and smirk";
  preset "😊 Happy" [
    lm "background" (vec 0.1 (-0.1) 0) [];
    lm "leftEyebrow" (vec 0.54 (-0.45) 0) [prop eyebrow 13];
    lm "rightEyebrow" (vec 0.54 (-0.45) 0) [prop eyebrow 13];
    lm "leftEye" (vec 0.045 (-0.39) 0) [prop eyes 2.5];
    lm "lips" (vec 0.41 0.21 0) [prop aaa 13; prop eee 12]
  ] "A broad smile with relaxed, cheerful features"
].

Section Component.
Context {Store : Type}.
Variable modifyImage : ModifyImageParams → Store → Store.
Variable previewImage : Store → option string.

Definition request : PresetLandmark → ModifyImageParams := Part000.request.

Definition handleClick (emotion : EmotionPreset) : Store → Store :=
  forEach (landmarks emotion) (λ landmark, modifyImage (request landmark)).

(** The component: [null] while the store holds no preview image, otherwise
    one button per preset of the table. *)
Definition EmotionPresets (s : Store) : option (list (Button Store)) :=
  if falsy (previewImage s) then None
  else Some ((λ emotion, {|
               key := name emotion;
               onClick := handleClick emotion;
               title := description emotion;
               label := name emotion
             |}) <$> EMOTION_PRESETS).

End Component.

End Part001.

(** ** Observing the calls of a handler

    A store that does nothing but remember the image it shows and the
    [modifyImage] calls it received, oldest first. *)
Record Recorder := {
  shown : option string;
  calls : list ModifyImageParams;
}.

Definition record (p : ModifyImageParams) (r : Recorder) : Recorder :=
  {| shown := shown r; calls := calls r ++ [p] |}.

Definition blank (img : option string) : Recorder :=
  {| shown := img; calls := [] |}.

(** A click on the [i]-th button of what the component rendered: it runs
    that button's handler; with nothing rendered, or no such button, there
    is no handler to run. *)
Definition click {Store : Type} (ui : option (list (Button Store))) (i : nat)
    (s : Store) : Store :=
  match ui with
  | Some buttons =>
      match buttons !! i with
      | Some b => onClick b s
      | None => s
      end
  | None => s
  end.

(** The optional keys some preset of the given tables declares on a landmark
    of group [g]. *)
Definition declaredFor (tables : list EmotionPreset) (g : LandmarkGroup)
    : gset ParamName :=
  ⋃ ((λ l, if decide (group l = g) then dom (declared l) else ∅)
       <$> concat (landmarks <$> tables)).

(** The files hold no catalogue of the parameters a group accepts; the two
    parameter-bearing tables show which keys go with which group: rotations
    on the background, [eyebrow] on the brows, [eyes] and pupils on the eyes,
    [aaa] and [eee] on the lips. *)
Definition visibleParams : LandmarkGroup → gset ParamName :=
  declaredFor (Part000.EMOTION_PRESETS ++ Part001.EMOTION_PRESETS).

(** "An unsupported parameter for the group is dropped": no key outside
    [paramsAccepted group] is left on the edit. *)
Definition dropsUnaccepted (paramsAccepted : LandmarkGroup → gset ParamName)
    (e : Edit) : Prop :=
  ∀ k, k ∉ paramsAccepted (edit_group e) → params e !! k = None.

(** * The editing session behind [modifyImage]

    The store itself ([hooks/useMainStore]) and the backend client
    ([hooks/useFacePokeAPI]) are not among the files above.  What follows
    is their behaviour as the specification describes it. *)

Abbreviation ExpressionState := (gmap string Edit).

(** Modelled from the spec: the Preview State of section 4.5, missing with
    the store: [{ originalPhoto, renderedArtifact | absent }], both opaque
    references. *)
Record PreviewState := {
  originalPhoto : string;
  renderedArtifact : option string;
}.

(** Modelled from the spec: what the Dispatch Protocol of section 4.4 sends
    to the backend, missing with the API hook: one message per Edit (group,
    vector, distance and params, that is the Edit), and the signal of a
    reset to restore the original photo. *)
Inductive Outbound :=
  | EditMessage (e : Edit)
  | RestoreOriginal.

(** Modelled from the spec: the error of section 7 that the composition and
    dispatch layers can report, missing with the store. *)
Inductive SessionError :=
  | DispatchFailed (e : Edit).

(** Modelled from the spec: the collaborators of a session, missing with the
    store.  [backend n m] is the backend's answer to the message [m] sent as
    the [n]-th message of the session: a rendered image, or nothing when the
    dispatch is rejected, fails or times out.  [mergeOther] is the merge of
    the modes other than PRIMARY, which the specification leaves open. *)
Record Environment := {
  backend : nat → Outbound → option string;
  mergeOther : ActionMode → Edit → ExpressionState → ExpressionState;
}.

(** Modelled from the spec: the session state, missing with the store:
    the ExpressionState of section 3, the Preview State, the messages
    dispatched so far (oldest first) and the errors reported to the caller. *)
Record Session := {
  expression : ExpressionState;
  preview : PreviewState;
  outbox : list Outbound;
  reports : list SessionError;
}.

(** Modelled from the spec: the lifecycle of section 3, missing with the
    store: "created empty when a new photo is loaded". *)
Definition newSession (photo : string) : Session :=
  {| expression := ∅;
     preview := {| originalPhoto := photo; renderedArtifact := None |};
     outbox := [];
     reports := [] |}.

(** Modelled from the spec: the single-edit apply of section 4.3, missing
    with the store: "under PRIMARY mode, applying Edit e for group g
    replaces any previous entry for g in ExpressionState". *)
Definition applyEdit (env : Environment) (mode : ActionMode) (e : Edit)
    (st : ExpressionState) : ExpressionState :=
  if decide (mode = PRIMARY) then <[edit_group e := e]> st
  else mergeOther env mode e st.

(** Modelled from the spec: the store action [modifyImage], missing from the
    files (sections 4.3 to 4.5 and 7): the Edit is merged into
    ExpressionState first, then dispatched as one message; a rendered image
    updates the Preview State; a failed dispatch reports DispatchFailed,
    keeps the merge and leaves the Preview State as it was. *)
Definition modifyImageSpec (env : Environment) (p : ModifyImageParams)
    (s : Session) : Session :=
  let e := landmark p in
  let merged := applyEdit env (mode p) e (expression s) in
  let message := EditMessage e in
  match backend env (length (outbox s)) message with
  | Some rendered =>
      {| expression := merged;
         preview := {| originalPhoto := originalPhoto (preview s);
                       renderedArtifact := Some rendered |};
         outbox := outbox s ++ [message];
         reports := reports s |}
  | None =>
      {| expression := merged;
         preview := preview s;
         outbox := outbox s ++ [message];
         reports := reports s ++ [DispatchFailed e] |}
  end.

(** Modelled from the spec: the reset of section 4.3, missing with the
    store: it "discards ExpressionState entirely and signals the Dispatch
    Protocol to restore the backend to the original, unedited photo", and
    clears the rendered artifact of the Preview State (section 8). *)
Definition resetSession (s : Session) : Session :=
  {| expression := ∅;
     preview := {| originalPhoto := originalPhoto (preview s);
                   renderedArtifact := None |};
     outbox := outbox s ++ [RestoreOriginal];
     reports := reports s |}.

(** Modelled from the spec: the Landmark Catalog of section 4.1, missing
    from the files: the set of known groups ([regionsFor]) and the parameter
    names each group accepts ([paramsAccepted]). *)
Record Catalog := {
  regionsFor : gset string;
  paramsAccepted : string → gset ParamName;
}.

(** Modelled from the spec: the one way the Edit Normalizer of section 4.2
    fails, missing with it. *)
Inductive NormalizeError :=
  | UnknownLandmarkGroup (g : LandmarkGroup).

(** Modelled from the spec: the Edit Normalizer of section 4.2 for a manual
    interaction (a pointer drag), missing from the files.  It "fails with
    UnknownLandmarkGroup when the group is not in the catalog"; a parameter
    the group does not accept "is dropped from params"; the numbers are
    passed through whatever they are; and
    "distance = sqrt(vector.x² + vector.y²)", computed here, never taken
    from the caller. *)
Definition normalize (catalog : Catalog) (g : LandmarkGroup) (v : Vector)
    (ps : Params) : NormalizeError + Edit :=
  if decide (g ∈ regionsFor catalog) then
    inr {| edit_group := g;
           distance := PrimFloat.sqrt (x v * x v + y v * y v);
           edit_vector := v;
           params := filter (λ kv, kv.1 ∈ paramsAccepted catalog g) ps |}
  else inl (UnknownLandmarkGroup g).

(** The [distance] of an Edit is the planar length of its own vector. *)
Definition derivedDistance (e : Edit) : Prop :=
  distance e
  = PrimFloat.sqrt (x (edit_vector e) * x (edit_vector e)
                    + y (edit_vector e) * y (edit_vector e)).

(** Modelled from the spec: the inbound commands of section 6, missing with
    the store: [applyEdit(group, vector, params?, mode)] for a manual edit
    (it takes no distance: the Edit comes out of the normaliser, and an
    unknown group is rejected with no state mutation), the activation of a
    preset (the component's click handler run against the store) and a
    reset. *)
Inductive Command :=
  | ApplyEdit (g : LandmarkGroup) (v : Vector) (ps : Params)
      (mode : ActionMode)
  | ActivatePreset (emotion : EmotionPreset)
  | ResetSession.

Definition execute (env : Environment) (catalog : Catalog) (s : Session)
    (c : Command) : Session :=
  match c with
  | ApplyEdit g v ps mode =>
      match normalize catalog g v ps with
      | inr e =>
          modifyImageSpec env {| landmark := e; top_vector := v; mode := mode |} s
      | inl _ => s
      end
  | ActivatePreset emotion =>
      Part000.handleClick (modifyImageSpec env) emotion s
  | ResetSession => resetSession s
  end.

Definition runSession (env : Environment) (catalog : Catalog)
    (photo : string) (history : list Command) : Session :=
  foldl (execute env catalog) (newSession photo) history.

(** * The environment scripts

    [setup_env.sh] and [activate_env.sh] are straight-line shell scripts with
    two tests on the host and one question to the user.  Neither sets
    [-e]: a command that fails does not stop the script, so the commands a
    run issues depend only on what the tests see. *)

(** What a script sees of the host: whether [command -v python3] succeeds,
    whether the directory [facepoke_env] exists when the script starts, and
    what [read -n 1 -r] leaves in [REPLY]. *)
Record Host := {
  python3 : bool;
  facepoke_env : bool;
  REPLY : string;
}.

(** The commands of the two scripts. *)
Inductive Step :=
  | Echo (text : string)
  | EchoWhich (text : string) (program : string)
  | Read (prompt : string)
  | RemoveEnv
  | CreateVenv
  | SourceActivate
  | Pip (args : list string)
  | Python (args : list string).

#[global] Instance Step_eq_dec : EqDecision Step.
Proof. solve_decision. Defined.

(** How a run ends: an explicit [exit n], or the end of the script. *)
Inductive Outcome :=
  | Exit (code : nat)
  | EndOfScript.

(** [[[ $REPLY =~ ^[Yy]$ ]]]: the reply is exactly [y] or [Y]. *)
Definition confirms (reply : string) : bool :=
  bool_decide (reply = "y" ∨ reply = "Y").

(** A step that acts on the host, as opposed to talking to the user. *)
Definition acts (c : Step) : bool :=
  match c with
  | Echo _ | EchoWhich _ _ | Read _ => false
  | _ => true
  end.

(** [activate_env.sh] *)
Definition activate_env (h : Host) : list Step * Outcome :=
  let intro := [Echo "🎭 Activating FacePoke virtual environment..."] in
  if negb (facepoke_env h) then
    (intro ++ [
       Echo "❌ Virtual environment not found!";
       Echo "📝 Please run setup_env.sh first to create the environment."
     ], Exit 1)
  else
    (intro ++ [
       SourceActivate;
       Echo "✅ Virtual environment activated!";
       EchoWhich "🐍 Python: " "python";
       EchoWhich "📦 Pip: " "pip";
       Echo "";
       Echo "🚀 To run the FacePoke Gradio interface:";
       Echo "   python run_gradio.py";
       Echo "";
       Echo "🧪 To test the installation:";
       Echo "   python test_gradio.py";
       Echo "";
       Echo "🔧 To deactivate the environment:";
       Echo "   deactivate"
     ], EndOfScript).

(** The part of [setup_env.sh] after the two guards: create the
    environment, activate it, install and check the dependencies. *)
Definition setup_install : list Step := [
  Echo "🔧 Creating virtual environment...";
  CreateVenv;
  Echo "🔧 Activating virtual environment...";
  SourceActivate;
  Echo "📦 Upgrading pip...";
  Pip ["install"; "--upgrade"; "pip"];
  Echo "📦 Installing dependencies...";
  Pip ["install"; "-r"; "requirements_gradio.txt"];
  Echo "";
  Echo "🔍 Checking all dependencies...";
  Python ["check_dependencies.py"];
  Echo "";
  Echo "✅ Setup complete!";
  Echo "";
  Echo "🚀 To activate the environment:";
  Echo "   source activate_env.sh";
  Echo "";
  Echo "🧪 To test the installation:";
  Echo "   python test_gradio.py";
  Echo "";
  Echo "🔍 To check dependencies:";
  Echo "   python check_dependencies.py";
  Echo "";
  Echo "🎭 To run the interface:";
  Echo "   python run_gradio.py"
].

(** [setup_env.sh] *)
Definition setup_env (h : Host) : list Step * Outcome :=
  let intro := [Echo "🎭 Setting up FacePoke virtual environment..."] in
  if negb (python3 h) then
    (intro ++ [
       Echo "❌ Python 3 is not installed!";
       Echo "📝 Please install Python 3.10 or later."
     ], Exit 1)
  else if facepoke_env h then
    let ask := [
      Echo "⚠️  Virtual environment already exists!";
      Read "Do you want to recreate it? (y/N): ";
      Echo ""
    ] in
    if confirms (REPLY h) then
      (intro ++ ask ++ [
         Echo "🗑️  Removing existing environment...";
         RemoveEnv
       ] ++ setup_install, EndOfScript)
    else
      (intro ++ ask ++ [
         Echo "📝 Using existing environment.";
         Echo "🚀 To activate: source activate_env.sh"
       ], Exit 0)
  else
    (intro ++ setup_install, EndOfScript).

(** The sign bit of a binary64 value is clear, or the value is NaN. *)
Definition signClear (f : spec_float) : Prop :=
  match f with
  | S754_nan => True
  | S754_zero s | S754_infinity s | S754_finite s _ _ => s = false
  end.

(** Proof steps shared by the facts about the scripts: membership in a
    closed list of steps, and the case analysis on what the host shows. *)
Ltac decide_member := apply (bool_decide_unpack _); by vm_compute.

Ltac absent c :=
  match goal with
  | |- context [c ∈ ?l] => assert (c ∉ l) by decide_member
  end.

Ltac script_cases h :=
  let p := fresh "p" in
  let e := fresh "e" in
  let r := fresh "r" in
  destruct h as [p e r]; unfold setup_env, activate_env;
  cbn [python3 facepoke_env REPLY];
  destruct p, e; cbn [negb];
  [destruct (confirms r) eqn:Hr| | |]; cbn [fst snd].

(** * Properties of the click handlers *)

Lemma forEach_app {A Store : Type} (xs ys : list A) (f : A → Store → Store)
    (s : Store) :
  forEach (xs ++ ys) f s = forEach ys f (forEach xs f s).
Proof. unfold forEach. apply foldl_app. Qed.

Lemma forEach_snoc {A Store : Type} (xs : list A) (a : A)
    (f : A → Store → Store) (s : Store) :
  forEach (xs ++ [a]) f s = f a (forEach xs f s).
Proof. by rewrite forEach_app. Qed.

(** A handler of the shape [xs.forEach(a => m(g(a)))] is the sequence of the
    calls [m(g(a))], one per element, first to last. *)
Lemma forEach_calls {A Store : Type} (xs : list A) (g : A → ModifyImageParams)
    (m : ModifyImageParams → Store → Store) (s : Store) :
  forEach xs (λ a, m (g a)) s = foldl (λ acc p, m p acc) s (g <$> xs).
Proof.
  revert s. induction xs as [|a xs IH]; intros s; [done|].
  cbn. apply IH.
Qed.

Lemma record_all (ps : list ModifyImageParams) (r : Recorder) :
  foldl (λ acc p, record p acc) r ps
  = {| shown := shown r; calls := calls r ++ ps |}.
Proof.
  revert r. induction ps as [|p ps IH]; intros r; cbn.
  - rewrite app_nil_r. by destruct r.
  - rewrite IH. cbn. by rewrite <- app_assoc.
Qed.

Lemma forEach_recorded {A : Type} (xs : list A) (g : A → ModifyImageParams)
    (r : Recorder) :
  calls (forEach xs (λ a, record (g a)) r) = calls r ++ (g <$> xs).
Proof. by rewrite forEach_calls, record_all. Qed.

Example happy_lips_distance :
  distance (landmark (Part001.request (lm "lips" (vec 0.41 0.21 0)
                                          [prop aaa 13; prop eee 12])))
  = 0.4606517122512408%float.
Proof. reflexivity. Qed.

Example angry_background_distance :
  distance (landmark (Client.request (lm "background" (vec 0 0.3 0) [])))
  = 0.3%float.
Proof. reflexivity. Qed.

(** C3: activating a preset is the sequence of the [modifyImage] calls of its
    landmarks and nothing else: against any store the handler equals the
    calls [request l] issued in array order, and a store that logs its calls
    sees exactly as many calls as the preset declares landmarks, the [i]-th
    call being the one of the [i]-th landmark. *)
Theorem preset_activation_one_call_per_landmark (emotion : EmotionPreset) :
  (∀ (Store : Type) (modifyImage : ModifyImageParams → Store → Store)
     (s : Store),
     Client.handleClick modifyImage emotion s
     = foldl (λ acc p, modifyImage p acc) s
         (Client.request <$> landmarks emotion)
     ∧ Part000.handleClick modifyImage emotion s
       = foldl (λ acc p, modifyImage p acc) s
           (Part000.request <$> landmarks emotion)
     ∧ Part001.handleClick modifyImage emotion s
       = foldl (λ acc p, modifyImage p acc) s
           (Part001.request <$> landmarks emotion))
  ∧ (∀ r : Recorder,
       calls (Client.handleClick record emotion r)
       = calls r ++ (Client.request <$> landmarks emotion)
       ∧ calls (Part000.handleClick record emotion r)
         = calls r ++ (Part000.request <$> landmarks emotion)
       ∧ calls (Part001.handleClick record emotion r)
         = calls r ++ (Part001.request <$> landmarks emotion))
  ∧ (∀ img : option string,
       length (calls (Client.handleClick record emotion (blank img)))
       = length (landmarks emotion)
       ∧ length (calls (Part000.handleClick record emotion (blank img)))
         = length (landmarks emotion)
       ∧ length (calls (Part001.handleClick record emotion (blank img)))
         = length (landmarks emotion))
  ∧ (∀ (img : option string) (i : nat),
       calls (Client.handleClick record emotion (blank img)) !! i
       = Client.request <$> (landmarks emotion !! i)
       ∧ calls (Part000.handleClick record emotion (blank img)) !! i
         = Part000.request <$> (landmarks emotion !! i)
       ∧ calls (Part001.handleClick record emotion (blank img)) !! i
         = Part001.request <$> (landmarks emotion !! i)).
Proof.
  unfold Client.handleClick, Part000.handleClick, Part001.handleClick.
  split; [|split; [|split]].
  - intros Store modifyImage s. by rewrite !forEach_calls.
  - intros r. by rewrite !forEach_recorded.
  - intros img. rewrite !forEach_recorded. cbn.
    by rewrite !length_fmap.
  - intros img i. rewrite !forEach_recorded. cbn.
    by rewrite !list_lookup_fmap.
Qed.

Example thinking_calls_in_order :
  (edit_group ∘ landmark) <$>
    calls (Part001.handleClick record
             (preset "🤔 Thinking" [
                lm "background" (vec 0.5 (-0.3) 0) [];
                lm "leftEyebrow" (vec 0.12 (-0.42) 0) [prop eyebrow 13.03];
                lm "lips" (vec (-0.09) 0.31 0) [prop aaa (-1.52); prop eee (-5.89)]
              ] "A contemplative look with a subtle head tilt and smirk")
             (blank (Some "data:image/png")))
  = ["background"; "leftEyebrow"; "lips"].
Proof. reflexivity. Qed.

(** C8: every call a preset activation makes carries the mode ['PRIMARY'],
    in each of the three versions of the component. *)
Theorem preset_calls_are_primary (emotion : EmotionPreset)
    (img : option string) :
  Forall (λ p, mode p = PRIMARY)
    (calls (Client.handleClick record emotion (blank img)))
  ∧ Forall (λ p, mode p = PRIMARY)
      (calls (Part000.handleClick record emotion (blank img)))
  ∧ Forall (λ p, mode p = PRIMARY)
      (calls (Part001.handleClick record emotion (blank img))).
Proof.
  unfold Client.handleClick, Part000.handleClick, Part001.handleClick.
  rewrite !forEach_recorded. cbn.
  repeat split; apply Forall_fmap, Forall_forall; by intros.
Qed.

(** C10: every call a preset activation makes holds the landmark's vector
    twice, as [landmark.vector] and as the top-level [vector], and the two
    are the same value. *)
Theorem preset_calls_carry_vector_twice (emotion : EmotionPreset)
    (img : option string) :
  (∀ l : PresetLandmark,
     edit_vector (landmark (Client.request l)) = vector l
     ∧ top_vector (Client.request l) = vector l
     ∧ edit_vector (landmark (Part000.request l)) = vector l
     ∧ top_vector (Part000.request l) = vector l
     ∧ edit_vector (landmark (Part001.request l)) = vector l
     ∧ top_vector (Part001.request l) = vector l)
  ∧ Forall (λ p, edit_vector (landmark p) = top_vector p)
      (calls (Client.handleClick record emotion (blank img)))
  ∧ Forall (λ p, edit_vector (landmark p) = top_vector p)
      (calls (Part000.handleClick record emotion (blank img)))
  ∧ Forall (λ p, edit_vector (landmark p) = top_vector p)
      (calls (Part001.handleClick record emotion (blank img))).
Proof.
  unfold Client.handleClick, Part000.handleClick, Part001.handleClick.
  rewrite !forEach_recorded. cbn.
  repeat split; apply Forall_fmap, Forall_forall; by intros.
Qed.

(** With an image loaded each version renders its six preset buttons. *)
Example buttons_once_loaded :
  let s := blank (Some "data:image/png;base64") in
  length <$> Client.EmotionPresets record shown s = Some 6
  ∧ length <$> Part000.EmotionPresets record shown s = Some 6
  ∧ length <$> Part001.EmotionPresets record shown s = Some 5.
Proof. by repeat split. Qed.

(** C9: while the store holds no preview image (the value is falsy), each
    version of the component renders [null]; there is then no button, so no
    click reaches a preset handler and the store is left as it is. *)
Theorem no_preview_no_presets {Store : Type}
    (modifyImage : ModifyImageParams → Store → Store)
    (previewImage : Store → option string) (s : Store) :
  falsy (previewImage s) = true →
  Client.EmotionPresets modifyImage previewImage s = None
  ∧ Part000.EmotionPresets modifyImage previewImage s = None
  ∧ Part001.EmotionPresets modifyImage previewImage s = None
  ∧ (∀ i : nat,
       click (Client.EmotionPresets modifyImage previewImage s) i s = s
       ∧ click (Part000.EmotionPresets modifyImage previewImage s) i s = s
       ∧ click (Part001.EmotionPresets modifyImage previewImage s) i s = s).
Proof.
  intros Hfalsy.
  unfold Client.EmotionPresets, Part000.EmotionPresets, Part001.EmotionPresets.
  rewrite Hfalsy. by repeat split.
Qed.

Lemma no_preview_no_presets_witness :
  Client.EmotionPresets record shown (blank None) = None
  ∧ Part000.EmotionPresets record shown (blank (Some "")) = None
  ∧ calls (click (Part001.EmotionPresets record shown (blank None)) 0
             (blank None)) = [].
Proof.
  pose proof (no_preview_no_presets record shown (blank None) eq_refl)
    as (Hc & _ & _ & Hclick).
  pose proof (no_preview_no_presets record shown (blank (Some "")) eq_refl)
    as (_ & Hp & _).
  destruct (Hclick 0) as (_ & _ & H1).
  split; [exact Hc|]. split; [exact Hp|]. by rewrite H1.
Defined.

(** The catalogue read off the visible tables accepts [aaa] and [eee] on the
    lips and no rotation there. *)
Example visibleParams_lips :
  visibleParams "lips" = {[aaa; eee]}
  ∧ visibleParams "background" = {[rotate_pitch; rotate_yaw; rotate_roll]}
  ∧ visibleParams "leftEye" = {[eyes; pupil_x; pupil_y]}
  ∧ visibleParams "leftEyebrow" = {[eyebrow]}.
Proof. repeat split; apply (bool_decide_unpack _); by vm_compute. Qed.

(** Whatever the accepted parameters of a group are, a key outside them
    that a landmark declares is still on the edit the handler produces. *)
Lemma request_keeps_unaccepted
    (paramsAccepted : LandmarkGroup → gset ParamName) (l : PresetLandmark)
    (k : ParamName) (v : float) :
  declared l !! k = Some v →
  k ∉ paramsAccepted (group l) →
  ¬ dropsUnaccepted paramsAccepted (landmark (Part000.request l)).
Proof.
  intros Hdecl Hout Hdrop. specialize (Hdrop k Hout). cbn in Hdrop. congruence.
Qed.

(** C5, as stated, fails: activating a preset whose landmark of group
    [lips] declares [rotate_pitch], a key the lips do not take, makes one
    call, and its edit still carries [rotate_pitch: 10]. *)
Lemma unaccepted_param_is_forwarded :
  let l := lm "lips" (vec 0 0 0) [prop rotate_pitch 10] in
  let emotion := preset "Nod" [l] "A parameter of the head on the lips" in
  let sent :=
    calls (Part000.handleClick record emotion (blank (Some "data:image/png"))) in
  (rotate_pitch ∉ visibleParams "lips")
  ∧ sent = [Part000.request l]
  ∧ edit_group (landmark (Part000.request l)) = "lips"
  ∧ params (landmark (Part000.request l)) !! rotate_pitch = Some 10%float
  ∧ Exists (λ p, ¬ dropsUnaccepted visibleParams (landmark p)) sent.
Proof.
  cbv zeta.
  assert (Hout : rotate_pitch ∉ visibleParams "lips")
    by (apply (bool_decide_unpack _); by vm_compute).
  split; [exact Hout|]. do 3 (split; [reflexivity|]).
  apply Exists_cons_hd.
  by apply (request_keeps_unaccepted visibleParams _ rotate_pitch 10%float).
Qed.

(** C5, amended: the handler forwards every optional key a landmark
    declares, with its value, whatever the group; group and vector are
    forwarded unchanged; every landmark of a preset yields its call, so
    no edit is rejected, whatever the numbers are. *)
Theorem preset_params_forwarded_unfiltered (l : PresetLandmark) :
  let e := landmark (Part000.request l) in
  params e = declared l
  ∧ (∀ k : ParamName, params e !! k = declared l !! k)
  ∧ edit_group e = group l
  ∧ edit_vector e = vector l
  ∧ landmark (Part001.request l) = e
  ∧ (∀ (emotion : EmotionPreset) (r : Recorder),
       l ∈ landmarks emotion →
       Part000.request l ∈ calls (Part000.handleClick record emotion r)
       ∧ Part001.request l ∈ calls (Part001.handleClick record emotion r)).
Proof.
  cbv zeta. repeat split; try done.
  all: unfold Part000.handleClick, Part001.handleClick;
    rewrite forEach_recorded; apply elem_of_app; right;
    by apply list_elem_of_fmap_2.
Qed.

(** * Properties of the session model *)

Lemma applyEdit_PRIMARY (env : Environment) (e : Edit) (st : ExpressionState) :
  applyEdit env PRIMARY e st = <[edit_group e := e]> st.
Proof. unfold applyEdit. by rewrite decide_True. Qed.

(** A run of PRIMARY edits on one group collapses to its last edit. *)
Lemma primary_run_collapses (env : Environment) (g : LandmarkGroup)
    (es : list Edit) (e : Edit) (st : ExpressionState) :
  Forall (λ e', edit_group e' = g) es →
  last es = Some e →
  foldl (λ acc e', applyEdit env PRIMARY e' acc) st es = <[g := e]> st.
Proof.
  revert st. induction es as [|a es IH]; intros st Hall Hlast; [done|].
  apply Forall_cons in Hall as [Ha Hall]. cbn.
  rewrite applyEdit_PRIMARY, Ha.
  destruct es as [|b es].
  - cbn in *. by simplify_eq.
  - rewrite (IH (<[g := a]> st) Hall) by done.
    apply insert_insert_eq.
Qed.

(** C1: after any sequence of PRIMARY edits on one landmark group, the entry
    of that group is the last edit of the sequence, and the whole state is
    the one that applying the last edit alone gives. *)
Theorem primary_last_write_wins (env : Environment) (g : LandmarkGroup)
    (es : list Edit) (e : Edit) (st : ExpressionState) :
  Forall (λ e', edit_group e' = g) es →
  last es = Some e →
  foldl (λ acc e', applyEdit env PRIMARY e' acc) st es !! g = Some e
  ∧ foldl (λ acc e', applyEdit env PRIMARY e' acc) st es
    = applyEdit env PRIMARY e st.
Proof.
  intros Hall Hlast.
  assert (Hg : edit_group e = g).
  { apply last_Some_elem_of in Hlast.
    by apply (proj1 (Forall_forall _ _) Hall). }
  rewrite (primary_run_collapses env g es e st Hall Hlast).
  split; [apply lookup_insert_eq|].
  by rewrite applyEdit_PRIMARY, Hg.
Qed.

(** The example of the specification: a smile on the lips, then the neutral
    lips; the entry is the second edit, with no parameter left. *)
Lemma primary_last_write_wins_witness :
  let smile := landmark (Part001.request
                 (lm "lips" (vec 0.41 0.21 0) [prop aaa 13; prop eee 12])) in
  let neutral := landmark (Part001.request (lm "lips" (vec 0 0 0) [])) in
  let env := {| backend := λ _ _, None; mergeOther := λ _ _ st, st |} in
  foldl (λ acc e', applyEdit env PRIMARY e' acc) ∅ [smile; neutral] !! "lips"
  = Some neutral
  ∧ params neutral = ∅.
Proof.
  cbv zeta. split; [|reflexivity].
  refine (proj1 (primary_last_write_wins _ "lips" _ _ ∅ _ _)).
  - repeat constructor.
  - reflexivity.
Defined.

(** C4: applying the same edit twice in a row gives the ExpressionState that
    applying it once gives, for the merge alone and through the store
    action. *)
Theorem primary_apply_idempotent (env : Environment) (e : Edit)
    (st : ExpressionState) (v : Vector) (s : Session) :
  applyEdit env PRIMARY e (applyEdit env PRIMARY e st)
  = applyEdit env PRIMARY e st
  ∧ let p := {| landmark := e; top_vector := v; mode := PRIMARY |} in
    expression (modifyImageSpec env p (modifyImageSpec env p s))
    = expression (modifyImageSpec env p s).
Proof.
  assert (Hexpr : ∀ p s', expression (modifyImageSpec env p s')
                  = applyEdit env (mode p) (landmark p) (expression s')).
  { intros p s'. unfold modifyImageSpec. by destruct (backend env _ _). }
  split.
  - rewrite !applyEdit_PRIMARY. apply insert_insert_eq.
  - cbv zeta. rewrite !Hexpr. cbn.
    rewrite !applyEdit_PRIMARY. apply insert_insert_eq.
Qed.

Lemma expression_modifyImageSpec (env : Environment) (p : ModifyImageParams)
    (s : Session) :
  expression (modifyImageSpec env p s)
  = applyEdit env (mode p) (landmark p) (expression s).
Proof. unfold modifyImageSpec. by destruct (backend env _ _). Qed.

Lemma outbox_modifyImageSpec (env : Environment) (p : ModifyImageParams)
    (s : Session) :
  outbox (modifyImageSpec env p s) = outbox s ++ [EditMessage (landmark p)].
Proof. unfold modifyImageSpec. by destruct (backend env _ _). Qed.

Lemma originalPhoto_modifyImageSpec (env : Environment)
    (p : ModifyImageParams) (s : Session) :
  originalPhoto (preview (modifyImageSpec env p s))
  = originalPhoto (preview s).
Proof. unfold modifyImageSpec. by destruct (backend env _ _). Qed.

Lemma reports_modifyImageSpec (env : Environment) (p : ModifyImageParams)
    (s : Session) (err : SessionError) :
  err ∈ reports s → err ∈ reports (modifyImageSpec env p s).
Proof.
  intros Hin. unfold modifyImageSpec. destruct (backend env _ _); cbn; [done|].
  apply elem_of_app. by left.
Qed.

(** A dispatch that fails keeps the merge, reports the failure and leaves
    the Preview State alone. *)
Lemma modifyImageSpec_failed (env : Environment) (p : ModifyImageParams)
    (s : Session) :
  backend env (length (outbox s)) (EditMessage (landmark p)) = None →
  preview (modifyImageSpec env p s) = preview s
  ∧ reports (modifyImageSpec env p s)
    = reports s ++ [DispatchFailed (landmark p)].
Proof. intros Hfail. unfold modifyImageSpec. by rewrite Hfail. Qed.

(** A dispatch that succeeds shows the rendered image and reports nothing. *)
Lemma modifyImageSpec_rendered (env : Environment) (p : ModifyImageParams)
    (s : Session) (img : string) :
  backend env (length (outbox s)) (EditMessage (landmark p)) = Some img →
  renderedArtifact (preview (modifyImageSpec env p s)) = Some img
  ∧ reports (modifyImageSpec env p s) = reports s.
Proof. intros Hok. unfold modifyImageSpec. by rewrite Hok. Qed.

Section PresetAgainstSession.
Variable env : Environment.
Variable request : PresetLandmark → ModifyImageParams.
Hypothesis request_primary : ∀ l, mode (request l) = PRIMARY.

Local Abbreviation step :=
  (λ l : PresetLandmark, modifyImageSpec env (request l)).

Lemma outbox_forEach (ls : list PresetLandmark) (s : Session) :
  outbox (forEach ls step s)
  = outbox s ++ ((EditMessage ∘ landmark ∘ request) <$> ls).
Proof.
  revert s. induction ls as [|l ls IH]; intros s; cbn.
  - by rewrite app_nil_r.
  - fold (forEach ls step (step l s)). rewrite IH.
    by rewrite outbox_modifyImageSpec, <- app_assoc.
Qed.

Lemma expression_forEach (ls : list PresetLandmark) (s : Session) :
  expression (forEach ls step s)
  = foldl (λ st e, <[edit_group e := e]> st) (expression s)
      ((landmark ∘ request) <$> ls).
Proof.
  revert s. induction ls as [|l ls IH]; intros s; cbn; [done|].
  fold (forEach ls step (step l s)). rewrite IH.
  by rewrite expression_modifyImageSpec, request_primary, applyEdit_PRIMARY.
Qed.

Lemma reports_forEach (ls : list PresetLandmark) (s : Session)
    (err : SessionError) :
  err ∈ reports s → err ∈ reports (forEach ls step s).
Proof.
  revert s. induction ls as [|l ls IH]; intros s Hin; cbn; [done|].
  fold (forEach ls step (step l s)). apply IH. by apply reports_modifyImageSpec.
Qed.

Lemma originalPhoto_forEach (ls : list PresetLandmark) (s : Session) :
  originalPhoto (preview (forEach ls step s)) = originalPhoto (preview s).
Proof.
  revert s. induction ls as [|l ls IH]; intros s; cbn; [done|].
  fold (forEach ls step (step l s)). rewrite IH.
  apply originalPhoto_modifyImageSpec.
Qed.

(** The failure of the [k]-th dispatch of a preset, for any handler of the
    shape [landmarks.forEach(l => modifyImage(request(l)))]. *)
Lemma failed_dispatch_in_preset (ls : list PresetLandmark) (s0 : Session)
    (k : nat) (l : PresetLandmark) :
  ls !! k = Some l →
  backend env (length (outbox s0) + k) (EditMessage (landmark (request l)))
  = None →
  let upto n := forEach (take n ls) step s0 in
  let final := forEach ls step s0 in
  let edits := (landmark ∘ request) <$> ls in
  expression (upto (S k))
  = foldl (λ st e, <[edit_group e := e]> st) (expression s0)
      (take (S k) edits)
  ∧ expression (upto (S k)) !! edit_group (landmark (request l))
    = Some (landmark (request l))
  ∧ preview (upto (S k)) = preview (upto k)
  ∧ reports (upto (S k))
    = reports (upto k) ++ [DispatchFailed (landmark (request l))]
  ∧ outbox final = outbox s0 ++ (EditMessage <$> edits)
  ∧ expression final
    = foldl (λ st e, <[edit_group e := e]> st) (expression s0) edits
  ∧ DispatchFailed (landmark (request l)) ∈ reports final.
Proof.
  intros Hk Hfail upto final edits.
  assert (Hlt : k < length ls) by (by eapply lookup_lt_Some).
  assert (Hstep : upto (S k) = step l (upto k)).
  { unfold upto. by rewrite (take_S_r ls k l Hk), forEach_snoc. }
  assert (Hlen : length (outbox (upto k)) = length (outbox s0) + k).
  { unfold upto. rewrite outbox_forEach, length_app, length_fmap, length_take.
    lia. }
  destruct (modifyImageSpec_failed env (request l) (upto k)) as [Hprev Hrep].
  { by rewrite Hlen. }
  assert (Hin : DispatchFailed (landmark (request l)) ∈ reports (upto (S k))).
  { rewrite Hstep, Hrep. apply elem_of_app. right.
    by apply list_elem_of_singleton. }
  split; [|split; [|split; [|split; [|split; [|split]]]]].
  - unfold upto, edits. by rewrite expression_forEach, fmap_take.
  - rewrite Hstep. rewrite expression_modifyImageSpec, request_primary, applyEdit_PRIMARY.
    apply lookup_insert_eq.
  - by rewrite Hstep.
  - by rewrite Hstep.
  - unfold final, edits. rewrite outbox_forEach.
    by rewrite <- list_fmap_compose.
  - unfold final, edits. by rewrite expression_forEach.
  - unfold final. rewrite <- (take_drop (S k) ls), forEach_app.
    by apply reports_forEach.
Qed.

End PresetAgainstSession.

(** C6: when the dispatch of the [k]-th edit of a preset fails, the edits up
    to and including the [k]-th are merged into ExpressionState, the failing
    step leaves the Preview State as it was and reports DispatchFailed, and
    the handler goes on: every edit of the preset is dispatched and merged,
    and the report is still there at the end. *)
Theorem failed_dispatch_keeps_merge_and_goes_on (env : Environment)
    (emotion : EmotionPreset) (s0 : Session) (k : nat) (l : PresetLandmark) :
  landmarks emotion !! k = Some l →
  backend env (length (outbox s0) + k)
    (EditMessage (landmark (Client.request l))) = None →
  let upto n :=
    forEach (take n (landmarks emotion))
      (λ l', modifyImageSpec env (Client.request l')) s0 in
  let final := Client.handleClick (modifyImageSpec env) emotion s0 in
  let edits := (landmark ∘ Client.request) <$> landmarks emotion in
  expression (upto (S k))
  = foldl (λ st e, <[edit_group e := e]> st) (expression s0)
      (take (S k) edits)
  ∧ expression (upto (S k)) !! group l = Some (landmark (Client.request l))
  ∧ preview (upto (S k)) = preview (upto k)
  ∧ reports (upto (S k))
    = reports (upto k) ++ [DispatchFailed (landmark (Client.request l))]
  ∧ outbox final = outbox s0 ++ (EditMessage <$> edits)
  ∧ expression final
    = foldl (λ st e, <[edit_group e := e]> st) (expression s0) edits
  ∧ DispatchFailed (landmark (Client.request l)) ∈ reports final.
Proof.
  intros Hk Hfail.
  exact (failed_dispatch_in_preset env Client.request (λ _, eq_refl)
           (landmarks emotion) s0 k l Hk Hfail).
Qed.

(** The example of the specification: a preset of three edits whose second
    dispatch fails.  Both brow and lips are merged, three messages went
    out, the failure of the brow edit is reported, and the preview shows
    the frame rendered for the third edit. *)
Lemma failed_dispatch_keeps_merge_and_goes_on_witness :
  let env := {| backend := λ n _, if decide (n = 1) then None
                                  else Some "frame";
                mergeOther := λ _ _ st, st |} in
  let thinking := preset "🤔 Thinking" [
      lm "faceOval" (vec 0.3 0 0) [];
      lm "leftEyebrow" (vec 0 (-0.2) 0) [];
      lm "lips" (vec 0.2 0 0) []
    ] "Tilted, contemplative look" in
  let brow := landmark (Client.request (lm "leftEyebrow" (vec 0 (-0.2) 0) [])) in
  let final :=
    Client.handleClick (modifyImageSpec env) thinking (newSession "portrait") in
  Client.EMOTION_PRESETS !! 4 = Some thinking
  ∧ length (outbox final) = 3
  ∧ dom (expression final) = {["faceOval"; "leftEyebrow"; "lips"]}
  ∧ DispatchFailed brow ∈ reports final
  ∧ renderedArtifact (preview final) = Some "frame".
Proof.
  cbv zeta.
  split; [reflexivity|].
  split; [reflexivity|].
  split; [apply (bool_decide_unpack _); by vm_compute|].
  split; [|reflexivity].
  refine (proj2 (proj2 (proj2 (proj2 (proj2 (proj2
    (failed_dispatch_keeps_merge_and_goes_on _ _ (newSession "portrait") 1
       (lm "leftEyebrow" (vec 0 (-0.2) 0) []) _ _))))))); reflexivity.
Defined.

Lemma originalPhoto_execute (env : Environment) (catalog : Catalog)
    (s : Session) (c : Command) :
  originalPhoto (preview (execute env catalog s c))
  = originalPhoto (preview s).
Proof.
  destruct c as [g v ps mode|emotion|]; cbn.
  - destruct (normalize catalog g v ps); [done|].
    apply originalPhoto_modifyImageSpec.
  - unfold Part000.handleClick. apply originalPhoto_forEach.
  - done.
Qed.

Lemma originalPhoto_runSession (env : Environment) (catalog : Catalog)
    (photo : string) (history : list Command) :
  originalPhoto (preview (runSession env catalog photo history)) = photo.
Proof.
  unfold runSession.
  induction history as [|c history IH] using rev_ind; [done|].
  by rewrite foldl_app; cbn; rewrite originalPhoto_execute.
Qed.

(** A history that leaves edits, a rendered frame and a report behind. *)
Example history_leaves_state :
  let env := {| backend := λ n _, if decide (n = 1) then None
                                  else Some "frame";
                mergeOther := λ _ _ st, st |} in
  let catalog := {| regionsFor := {["lips"]};
                    paramsAccepted := λ _, {[aaa; eee]} |} in
  let s := runSession env catalog "portrait"
             [ActivatePreset (preset "calm" [
                 lm "lips" (vec 0.41 0.21 0) [prop aaa 13; prop eee 12];
                 lm "leftEye" (vec 0.045 (-0.39) 0) [prop eyes 2.5]
               ] "two edits")] in
  size (expression s) = 2
  ∧ renderedArtifact (preview s) = Some "frame"
  ∧ length (reports s) = 1.
Proof. by vm_compute. Qed.

(** C7: whatever commands a session went through, a reset leaves the
    ExpressionState empty and the Preview State without a rendered
    artifact, on the photo the session was created for, and the last
    message sent tells the backend to restore the original photo. *)
Theorem reset_clears_session (env : Environment) (catalog : Catalog)
    (photo : string) (history : list Command) :
  let s := resetSession (runSession env catalog photo history) in
  expression s = ∅
  ∧ renderedArtifact (preview s) = None
  ∧ originalPhoto (preview s) = photo
  ∧ outbox s
    = outbox (runSession env catalog photo history) ++ [RestoreOriginal]
  ∧ last (outbox s) = Some RestoreOriginal
  ∧ execute env catalog (runSession env catalog photo history) ResetSession
    = s.
Proof.
  cbv zeta. cbn.
  repeat split; [apply originalPhoto_runSession | apply last_snoc].
Qed.

(** * Where the distance of an Edit comes from *)

(** A manual drag by (3, 4) on the lips: the normaliser computes the
    distance 5, keeps the accepted [aaa] and drops [rotate_pitch]; an
    unknown group is rejected. *)
Example normalize_manual_drag :
  let catalog := {| regionsFor := {["lips"; "leftEye"]};
                    paramsAccepted := λ _, {[aaa; eee]} |} in
  let ps := list_to_map [prop aaa 13; prop rotate_pitch 10] in
  sum_map id distance (normalize catalog "lips" (vec 3 4 7) ps) = inr 5%float
  ∧ sum_map id (λ e, params e !! aaa) (normalize catalog "lips" (vec 3 4 7) ps)
    = inr (Some 13%float)
  ∧ sum_map id (λ e, params e !! rotate_pitch)
      (normalize catalog "lips" (vec 3 4 7) ps)
    = inr None
  ∧ normalize catalog "nose" (vec 3 4 7) ps = inl (UnknownLandmarkGroup "nose").
Proof. cbv zeta. repeat split; by vm_compute. Qed.

Lemma normalize_derivedDistance (catalog : Catalog) (g : LandmarkGroup)
    (v : Vector) (ps : Params) (e : Edit) :
  normalize catalog g v ps = inr e →
  derivedDistance e ∧ edit_vector e = v ∧ edit_group e = g.
Proof.
  unfold normalize. destruct (decide _); [|done].
  by intros [= <-].
Qed.

(** Every message a session dispatches carries an Edit whose distance is
    derived from its vector. *)
Lemma execute_outbox_derived (env : Environment) (catalog : Catalog)
    (s : Session) (c : Command) :
  Forall (λ m, ∀ e, m = EditMessage e → derivedDistance e) (outbox s) →
  Forall (λ m, ∀ e, m = EditMessage e → derivedDistance e)
    (outbox (execute env catalog s c)).
Proof.
  intros Hs. destruct c as [g v ps mode|emotion|]; cbn.
  - destruct (normalize catalog g v ps) as [err|e] eqn:Hn; [done|].
    rewrite outbox_modifyImageSpec. apply Forall_app. split; [done|].
    apply Forall_singleton. intros e' [= <-]. cbn.
    by apply normalize_derivedDistance in Hn as [? _].
  - unfold Part000.handleClick. rewrite outbox_forEach.
    apply Forall_app. split; [done|].
    apply Forall_fmap, Forall_forall. by intros l _ e' [= <-].
  - apply Forall_app. split; [done|]. by apply Forall_singleton.
Qed.

Lemma runSession_outbox_derived (env : Environment) (catalog : Catalog)
    (photo : string) (history : list Command) :
  Forall (λ m, ∀ e, m = EditMessage e → derivedDistance e)
    (outbox (runSession env catalog photo history)).
Proof.
  unfold runSession.
  induction history as [|c history IH] using rev_ind; [by constructor|].
  rewrite foldl_app. cbn. by apply execute_outbox_derived.
Qed.

(** C2: the [distance] of every Edit, from a preset or from a manual
    interaction, is [Math.sqrt(x*x + y*y)] of the Edit's own vector.  In
    every call a preset produces it is that of the landmark's vector,
    whatever [z] and whatever else the landmark declares.  The normaliser of
    a manual edit takes no distance and computes the same expression, for
    every accepted group.  So every Edit a session ever dispatches, after
    any history of manual edits, preset activations and resets, carries the
    distance derived from its vector. *)
Theorem edit_distance_derived_from_vector (l : PresetLandmark) :
  let v := vector l in
  let d := PrimFloat.sqrt (x v * x v + y v * y v) in
  distance (landmark (Client.request l)) = d
  ∧ distance (landmark (Part000.request l)) = d
  ∧ distance (landmark (Part001.request l)) = d
  ∧ (∀ (g : LandmarkGroup) (z' : float) (ps : Params),
       let l' := {| group := g; vector := vec (x v) (y v) z'; declared := ps |} in
       distance (landmark (Client.request l')) = d
       ∧ distance (landmark (Part000.request l')) = d
       ∧ distance (landmark (Part001.request l')) = d)
  ∧ (∀ (catalog : Catalog) (g : LandmarkGroup) (z' : float) (ps : Params),
       (g ∈ regionsFor catalog →
        ∃ e, normalize catalog g (vec (x v) (y v) z') ps = inr e)
       ∧ (∀ e, normalize catalog g (vec (x v) (y v) z') ps = inr e →
               distance e = d ∧ edit_vector e = vec (x v) (y v) z'))
  ∧ (∀ (env : Environment) (catalog : Catalog) (photo : string)
       (history : list Command),
       Forall (λ m, ∀ e, m = EditMessage e →
                 distance e
                 = PrimFloat.sqrt (x (edit_vector e) * x (edit_vector e)
                                   + y (edit_vector e) * y (edit_vector e)))
         (outbox (runSession env catalog photo history))).
Proof.
  cbv zeta. do 4 (split; [by repeat split|]). split.
  - intros catalog g z' ps. split.
    + intros Hg. unfold normalize. rewrite decide_True by done. by eexists.
    + intros e He. apply normalize_derivedDistance in He as (Hd & Hv & _).
      unfold derivedDistance in Hd. rewrite Hv in Hd. by split.
  - intros env catalog photo history.
    apply runSession_outbox_derived.
Qed.

(** * More on the component: rendering and clicks *)

(** X1: with a preview image loaded, a click on the [i]-th button runs the
    handler of the [i]-th preset of the table, and a click past the last
    button changes nothing. *)
Theorem click_runs_preset_of_button {Store : Type}
    (modifyImage : ModifyImageParams → Store → Store)
    (previewImage : Store → option string) (s : Store) (i : nat) :
  falsy (previewImage s) = false →
  click (Client.EmotionPresets modifyImage previewImage s) i s
  = from_option (λ emotion, Client.handleClick modifyImage emotion s) s
      (Client.EMOTION_PRESETS !! i)
  ∧ click (Part000.EmotionPresets modifyImage previewImage s) i s
    = from_option (λ emotion, Part000.handleClick modifyImage emotion s) s
        (Part000.EMOTION_PRESETS !! i)
  ∧ click (Part001.EmotionPresets modifyImage previewImage s) i s
    = from_option (λ emotion, Part001.handleClick modifyImage emotion s) s
        (Part001.EMOTION_PRESETS !! i).
Proof.
  intros Hloaded.
  unfold Client.EmotionPresets, Part000.EmotionPresets, Part001.EmotionPresets.
  rewrite Hloaded. unfold click. rewrite !list_lookup_fmap.
  repeat split.
  - by destruct (Client.EMOTION_PRESETS !! i).
  - by destruct (Part000.EMOTION_PRESETS !! i).
  - by destruct (Part001.EMOTION_PRESETS !! i).
Qed.

Lemma click_runs_preset_of_button_witness :
  let s := blank (Some "data:image/png") in
  (edit_group ∘ landmark) <$>
    calls (click (Client.EmotionPresets record shown s) 4 s)
  = ["faceOval"; "leftEyebrow"; "lips"]
  ∧ click (Part001.EmotionPresets record shown s) 5 s = s.
Proof.
  cbv zeta.
  destruct (click_runs_preset_of_button record shown
              (blank (Some "data:image/png")) 4 eq_refl) as (-> & _ & _).
  destruct (click_runs_preset_of_button record shown
              (blank (Some "data:image/png")) 5 eq_refl) as (_ & _ & ->).
  split; reflexivity.
Defined.

(** The keys of the buttons are the names of the presets, and within each
    table the names are pairwise distinct. *)
Lemma preset_names_distinct :
  NoDup (name <$> Client.EMOTION_PRESETS)
  ∧ NoDup (name <$> Part000.EMOTION_PRESETS)
  ∧ NoDup (name <$> Part001.EMOTION_PRESETS).
Proof. repeat split; apply (bool_decide_unpack _); by vm_compute. Qed.

(** X2: whenever a preview image is loaded, the component renders one button
    per preset of its table, in table order, labelled and keyed with the
    preset's name and titled with its description, and no two buttons share
    a React key. *)
Theorem rendered_buttons_follow_table {Store : Type}
    (modifyImage : ModifyImageParams → Store → Store)
    (previewImage : Store → option string) (s : Store) :
  falsy (previewImage s) = false →
  (∃ buttons, Client.EmotionPresets modifyImage previewImage s = Some buttons
     ∧ key <$> buttons = name <$> Client.EMOTION_PRESETS
     ∧ label <$> buttons = name <$> Client.EMOTION_PRESETS
     ∧ title <$> buttons = description <$> Client.EMOTION_PRESETS
     ∧ NoDup (key <$> buttons))
  ∧ (∃ buttons, Part000.EmotionPresets modifyImage previewImage s = Some buttons
       ∧ key <$> buttons = name <$> Part000.EMOTION_PRESETS
       ∧ label <$> buttons = name <$> Part000.EMOTION_PRESETS
       ∧ title <$> buttons = description <$> Part000.EMOTION_PRESETS
       ∧ NoDup (key <$> buttons))
  ∧ (∃ buttons, Part001.EmotionPresets modifyImage previewImage s = Some buttons
       ∧ key <$> buttons = name <$> Part001.EMOTION_PRESETS
       ∧ label <$> buttons = name <$> Part001.EMOTION_PRESETS
       ∧ title <$> buttons = description <$> Part001.EMOTION_PRESETS
       ∧ NoDup (key <$> buttons)).
Proof.
  intros Hloaded.
  destruct preset_names_distinct as (Hc & H0 & H1).
  unfold Client.EmotionPresets, Part000.EmotionPresets, Part001.EmotionPresets.
  rewrite Hloaded.
  repeat split; eexists; (split; [reflexivity|]);
    by rewrite <- !list_fmap_compose.
Qed.

Lemma rendered_buttons_follow_table_witness :
  ∃ buttons : list (Button Recorder),
    Part001.EmotionPresets record shown (blank (Some "data:image/png"))
    = Some buttons
    ∧ length buttons = 5
    ∧ NoDup (key <$> buttons).
Proof.
  destruct (rendered_buttons_follow_table record shown
              (blank (Some "data:image/png")) eq_refl)
    as (_ & _ & buttons & Hrender & Hkeys & _ & _ & Hdistinct).
  exists buttons. split; [exact Hrender|]. split; [|exact Hdistinct].
  rewrite <- (length_fmap key), Hkeys. reflexivity.
Defined.

(** X3: the version that spreads [...params] and the first version build the
    same call for a landmark exactly when the landmark declares no optional
    key (the first version reads [group] and [vector] only and sends no
    parameter); on a preset whose landmarks declare none, the two handlers
    are the same function of the store. *)
Theorem versions_agree_without_params (l : PresetLandmark) :
  (Part000.request l = Client.request l ↔ declared l = ∅)
  ∧ params (landmark (Client.request l)) = ∅
  ∧ (∀ (emotion : EmotionPreset) (Store : Type)
       (modifyImage : ModifyImageParams → Store → Store) (s : Store),
       Forall (λ l', declared l' = ∅) (landmarks emotion) →
       Part000.handleClick modifyImage emotion s
       = Client.handleClick modifyImage emotion s)
  ∧ Forall (λ emotion, Forall (λ l', declared l' = ∅) (landmarks emotion))
      Client.EMOTION_PRESETS.
Proof.
  split; [|split; [done|split]].
  - unfold Part000.request, Client.request. split.
    + intros H. by injection H.
    + by intros ->.
  - intros emotion Store modifyImage s Hall.
    unfold Part000.handleClick, Client.handleClick, forEach.
    revert s. induction Hall as [|l' ls Hl' _ IH]; intros s; [done|].
    cbn. rewrite <- IH. f_equal.
    unfold Part000.request, Client.request. by rewrite Hl'.
  - repeat constructor.
Qed.

(** X4: activating presets composes: the handler on the landmarks of [a]
    followed by those of [b] is the handler on [a] and then on [b]; a preset
    without landmarks leaves the store as it is; name and description of a
    preset have no part in what the handler does. *)
Theorem activation_composes {Store : Type}
    (modifyImage : ModifyImageParams → Store → Store)
    (a b : EmotionPreset) (n : string) (d : option string) (s : Store) :
  let ab := {| name := n; landmarks := landmarks a ++ landmarks b;
               description := d |} in
  let none := {| name := n; landmarks := []; description := d |} in
  Client.handleClick modifyImage ab s
  = Client.handleClick modifyImage b (Client.handleClick modifyImage a s)
  ∧ Part000.handleClick modifyImage ab s
    = Part000.handleClick modifyImage b (Part000.handleClick modifyImage a s)
  ∧ Part001.handleClick modifyImage ab s
    = Part001.handleClick modifyImage b (Part001.handleClick modifyImage a s)
  ∧ Client.handleClick modifyImage none s = s
  ∧ Part000.handleClick modifyImage none s = s
  ∧ Part001.handleClick modifyImage none s = s.
Proof.
  cbv zeta.
  unfold Client.handleClick, Part000.handleClick, Part001.handleClick.
  cbn [landmarks]. by rewrite !forEach_app.
Qed.

(** * The distance as a binary64 computation *)

Lemma binary_round_aux_signClear (prec emax m e : Z) (l : location) :
  signClear (binary_round_aux prec emax false m e l).
Proof.
  unfold binary_round_aux.
  destruct (shr_fexp _ _ _ _ _) as [mrs' e'].
  destruct (shr_fexp _ _ _ _ _) as [mrs'' e''].
  destruct (shr_m mrs''); cbn; try done.
  by destruct (Z.leb _ _).
Qed.

Lemma SFmul_square_signClear (prec emax : Z) (a : spec_float) :
  signClear (SFmul prec emax a a).
Proof.
  destruct a as [s|s| |s m e]; cbn; try done; try by destruct s.
  replace (xorb s s) with false by (by destruct s).
  apply binary_round_aux_signClear.
Qed.

Lemma SFadd_signClear (prec emax : Z) (a b : spec_float) :
  signClear a → signClear b → signClear (SFadd prec emax a b).
Proof.
  destruct a as [s|s| |s m e], b as [s'|s'| |s' m' e']; cbn;
    intros Ha Hb; subst; try done.
  unfold binary_normalize.
  set (p := (shl_align m e _).1). set (q := (shl_align m' e' _).1).
  clearbody p q. cbn [cond_Zopp]. rewrite <- Pos2Z.inj_add.
  unfold binary_round.
  destruct (shl_align _ _ _) as [mz ez].
  apply binary_round_aux_signClear.
Qed.

Lemma SFsqrt_signClear (prec emax : Z) (a : spec_float) :
  signClear a → signClear (SFsqrt prec emax a).
Proof.
  destruct a as [s|s| |s m e]; cbn; try done; intros Ha; subst; try done.
  destruct (SFsqrt_core_binary _ _ _ _) as [[mz ez] lz].
  apply binary_round_aux_signClear.
Qed.

Lemma SFmul_opp_opp (prec emax : Z) (a : spec_float) :
  SFmul prec emax (SFopp a) (SFopp a) = SFmul prec emax a a.
Proof. destruct a as [s|s| |s m e]; cbn; try done; by destruct s. Qed.

Lemma SFadd_comm (prec emax : Z) (a b : spec_float) :
  SFadd prec emax a b = SFadd prec emax b a.
Proof.
  destruct a as [s|s| |s m e], b as [s'|s'| |s' m' e']; cbn; try done;
    try (by destruct s, s').
  by rewrite Z.min_comm, Z.add_comm.
Qed.

(** [Math.sqrt(a*a + b*b)] has a clear sign bit unless it is NaN. *)
Lemma hypot_signClear (a b : float) :
  signClear (Prim2SF (PrimFloat.sqrt (a * a + b * b))).
Proof.
  rewrite sqrt_spec, add_spec, !mul_spec.
  apply SFsqrt_signClear, SFadd_signClear; apply SFmul_square_signClear.
Qed.

Lemma hypot_not_negative (a b : float) :
  (PrimFloat.sqrt (a * a + b * b) <? 0)%float = false
  ∧ abs (PrimFloat.sqrt (a * a + b * b)) = PrimFloat.sqrt (a * a + b * b).
Proof.
  pose proof (hypot_signClear a b) as H. split.
  - rewrite ltb_spec.
    destruct (Prim2SF _) as [s|s| |s m e]; cbn in *; by subst.
  - apply Prim2SF_inj. rewrite abs_spec.
    destruct (Prim2SF _) as [s|s| |s m e]; cbn in *; by subst.
Qed.

Lemma hypot_mirror (a b : float) :
  PrimFloat.sqrt (- a * - a + - b * - b) = PrimFloat.sqrt (a * a + b * b).
Proof.
  assert (Hsq : ∀ c : float, (- c * - c = c * c)%float).
  { intros c. apply Prim2SF_inj. rewrite !mul_spec, !opp_spec.
    apply SFmul_opp_opp. }
  by rewrite !Hsq.
Qed.

Lemma hypot_swap (a b : float) :
  PrimFloat.sqrt (a * a + b * b) = PrimFloat.sqrt (b * b + a * a).
Proof.
  f_equal. apply Prim2SF_inj. rewrite !add_spec. apply SFadd_comm.
Qed.

Lemma hypot_nan (a b : float) :
  a = nan ∨ b = nan → PrimFloat.sqrt (a * a + b * b) = nan.
Proof.
  intros Hnan. apply Prim2SF_inj. rewrite sqrt_spec, add_spec, !mul_spec.
  destruct Hnan as [-> | ->]; change (Prim2SF nan) with S754_nan.
  - reflexivity.
  - change (SF64mul S754_nan S754_nan) with S754_nan.
    unfold SF64add. by destruct (SF64mul _ _).
Qed.

(** X5: the distance a preset edit carries is never negative and never the
    negative zero: comparing it with zero by [<] is false, and it equals its
    own absolute value (both also hold when it is NaN). *)
Theorem preset_distance_not_negative (l : PresetLandmark) :
  let dc := distance (landmark (Client.request l)) in
  let dp := distance (landmark (Part000.request l)) in
  (dc <? 0)%float = false ∧ abs dc = dc
  ∧ (dp <? 0)%float = false ∧ abs dp = dp
  ∧ distance (landmark (Part001.request l)) = dp.
Proof.
  cbv zeta. cbn.
  destruct (hypot_not_negative (x (vector l)) (y (vector l))) as [Hlt Habs].
  by rewrite Hlt, Habs.
Qed.

(** X6: the distance is the same for a displacement, for its mirror image
    [(-x, -y)] and for the displacement with [x] and [y] exchanged, whatever
    [z] and the declared parameters are. *)
Theorem preset_distance_symmetric (l : PresetLandmark) (g : LandmarkGroup)
    (z' : float) (ps : Params) :
  let v := vector l in
  let mirrored :=
    {| group := g; vector := vec (- x v) (- y v) z'; declared := ps |} in
  let swapped :=
    {| group := g; vector := vec (y v) (x v) z'; declared := ps |} in
  distance (landmark (Client.request mirrored))
  = distance (landmark (Client.request l))
  ∧ distance (landmark (Client.request swapped))
    = distance (landmark (Client.request l))
  ∧ distance (landmark (Part000.request mirrored))
    = distance (landmark (Part000.request l))
  ∧ distance (landmark (Part000.request swapped))
    = distance (landmark (Part000.request l)).
Proof.
  cbv zeta. cbn.
  rewrite hypot_mirror, <- (hypot_swap (x (vector l)) (y (vector l))).
  done.
Qed.

(** X7: a landmark whose [x] or [y] is NaN still gets its call, in its place
    and with the vector as it is; the distance of that call is NaN. *)
Theorem nan_displacement_gives_nan_distance (emotion : EmotionPreset)
    (i : nat) (l : PresetLandmark) (r : Recorder) :
  landmarks emotion !! i = Some l →
  x (vector l) = nan ∨ y (vector l) = nan →
  ∃ p, calls (Part000.handleClick record emotion r)
         !! (length (calls r) + i) = Some p
       ∧ distance (landmark p) = nan
       ∧ top_vector p = vector l
       ∧ calls (Client.handleClick record emotion r)
           !! (length (calls r) + i) = Some (Client.request l)
       ∧ distance (landmark (Client.request l)) = nan.
Proof.
  intros Hi Hnan. exists (Part000.request l).
  unfold Part000.handleClick, Client.handleClick.
  rewrite !forEach_recorded, !lookup_app_r, !Nat.add_sub' by lia.
  rewrite !list_lookup_fmap, Hi. cbn.
  by rewrite (hypot_nan _ _ Hnan).
Qed.

Lemma nan_displacement_gives_nan_distance_witness :
  let broken := lm "lips" (vec nan 0.21 0) [prop aaa 13] in
  let emotion := preset "Glitch" [lm "leftEye" (vec 0 0.2 0) []; broken]
                   "A landmark with no x" in
  ∃ p, calls (Part000.handleClick record emotion (blank None)) !! 1 = Some p
       ∧ distance (landmark p) = nan
       ∧ edit_group (landmark p) = "lips".
Proof.
  cbv zeta.
  destruct (nan_displacement_gives_nan_distance
              (preset "Glitch" [lm "leftEye" (vec 0 0.2 0) [];
                                lm "lips" (vec nan 0.21 0) [prop aaa 13]]
                 "A landmark with no x")
              1 (lm "lips" (vec nan 0.21 0) [prop aaa 13]) (blank None)
              eq_refl (or_introl eq_refl))
    as (p & Hp & Hd & _).
  exists p. split; [exact Hp|]. split; [exact Hd|].
  cbn in Hp. by injection Hp as <-.
Defined.

(** * The environment scripts *)

Lemma confirms_spec (reply : string) :
  confirms reply = true ↔ reply = "y" ∨ reply = "Y".
Proof. unfold confirms. apply bool_decide_eq_true. Qed.

(** The commands [setup_env.sh] runs once it decides to install. *)
Lemma setup_install_acts :
  filter acts setup_install = [
    CreateVenv;
    SourceActivate;
    Pip ["install"; "--upgrade"; "pip"];
    Pip ["install"; "-r"; "requirements_gradio.txt"];
    Python ["check_dependencies.py"]
  ].
Proof. reflexivity. Qed.

(** X8: [activate_env.sh] sources the environment exactly when the
    directory [facepoke_env] exists; when it does not, the script only
    prints and exits with status 1, and nothing else acts on the host. *)
Theorem activate_env_guard (h : Host) :
  (SourceActivate ∈ (activate_env h).1 ↔ facepoke_env h = true)
  ∧ ((activate_env h).2 = Exit 1 ↔ facepoke_env h = false)
  ∧ ((activate_env h).2 = EndOfScript ↔ facepoke_env h = true)
  ∧ filter acts (activate_env h).1
    = (if facepoke_env h then [SourceActivate] else []).
Proof.
  destruct h as [p e r]; unfold activate_env; cbn; destruct e; cbn.
  - repeat split; try done. intros _. apply (bool_decide_unpack _). by vm_compute.
  - repeat split; try done. intros Hin. exfalso. revert Hin.
    apply (bool_decide_unpack _). by vm_compute.
Qed.

(** X9: [setup_env.sh] removes an environment only when python3 is there,
    the directory exists and the reply is exactly [y] or [Y].  The prompt
    then comes before the removal in the run, nothing acts on the host
    before the removal, and what follows the removal is the installation. *)
Theorem setup_env_removes_only_on_confirmation (h : Host) :
  (RemoveEnv ∈ (setup_env h).1
   ↔ python3 h = true ∧ facepoke_env h = true
     ∧ (REPLY h = "y" ∨ REPLY h = "Y"))
  ∧ (RemoveEnv ∈ (setup_env h).1 →
     filter acts (setup_env h).1 = RemoveEnv :: filter acts setup_install
     ∧ Read "Do you want to recreate it? (y/N): " ∈ (setup_env h).1
     ∧ ∃ before between : list Step,
         (setup_env h).1
         = before ++ Read "Do you want to recreate it? (y/N): "
             :: between ++ RemoveEnv :: setup_install
         ∧ filter acts before = []
         ∧ filter acts between = []
         ∧ RemoveEnv ∉ setup_install).
Proof.
  assert (Honce : RemoveEnv ∉ setup_install) by decide_member.
  script_cases h; try absent RemoveEnv.
  - apply confirms_spec in Hr.
    split; [split; [done|intros _; decide_member]|].
    intros _. split; [reflexivity|]. split; [decide_member|].
    exists [Echo "🎭 Setting up FacePoke virtual environment...";
            Echo "⚠️  Virtual environment already exists!"],
           [Echo ""; Echo "🗑️  Removing existing environment..."].
    by repeat split.
  - split; [|done]. split; [done|].
    intros (_ & _ & Hyes). apply confirms_spec in Hyes. congruence.
  - split; [|done]. split; [done|]. by intros (_ & ? & _).
  - split; [|done]. split; [done|]. by intros (? & _).
  - split; [|done]. split; [done|]. by intros (? & _).
Qed.

(** A run that recreates the environment: prompt, then removal, then the
    installation; and a run that declines. *)
Example setup_env_recreates :
  let yes := {| python3 := true; facepoke_env := true; REPLY := "Y" |} in
  let no := {| python3 := true; facepoke_env := true; REPLY := "yes" |} in
  (setup_env yes).1 !! 2 = Some (Read "Do you want to recreate it? (y/N): ")
  ∧ (setup_env yes).1 !! 5 = Some RemoveEnv
  ∧ (setup_env yes).1 !! 7 = Some CreateVenv
  ∧ (setup_env yes).2 = EndOfScript
  ∧ filter acts (setup_env no).1 = []
  ∧ (setup_env no).2 = Exit 0.
Proof. by vm_compute. Qed.

(** X10: [setup_env.sh] stops early in two cases only: with status 1 when
    python3 is missing, and with status 0 when the environment exists and
    the reply is not [y] or [Y]; in both it has done nothing to the host.
    Otherwise it runs to its end and has installed. *)
Theorem setup_env_outcomes (h : Host) :
  ((setup_env h).2 = Exit 1 ↔ python3 h = false)
  ∧ ((setup_env h).2 = Exit 0
     ↔ python3 h = true ∧ facepoke_env h = true
       ∧ ¬ (REPLY h = "y" ∨ REPLY h = "Y"))
  ∧ (∀ code, (setup_env h).2 = Exit code →
       filter acts (setup_env h).1 = [] ∧ (code = 0 ∨ code = 1))
  ∧ ((setup_env h).2 = EndOfScript →
       filter acts (setup_env h).1
       = (if facepoke_env h then [RemoveEnv] else [])
         ++ filter acts setup_install).
Proof.
  script_cases h; (split; [|split; [|split]]); try done.
  - apply confirms_spec in Hr. split; [done|]. by intros (_ & _ & ?).
  - split; [intros _|done]. repeat split.
    intros Hyes. apply confirms_spec in Hyes. congruence.
  - intros code [= <-]. split; [reflexivity|by left].
  - split; [done|]. by intros (_ & ? & _).
  - split; [done|]. by intros (? & _).
  - intros code [= <-]. split; [reflexivity|by right].
  - split; [done|]. by intros (? & _).
  - intros code [= <-]. split; [reflexivity|by right].
Qed.

(** X11: when [setup_env.sh] keeps an existing environment (it exits with
    status 0 and points the user to [activate_env.sh]), [activate_env.sh]
    on that host passes its guard: it sources the environment and runs to
    its end. *)
Theorem kept_environment_can_be_activated (h : Host) :
  (setup_env h).2 = Exit 0 →
  SourceActivate ∈ (activate_env h).1
  ∧ (activate_env h).2 = EndOfScript
  ∧ Echo "🚀 To activate: source activate_env.sh" ∈ (setup_env h).1.
Proof.
  script_cases h; try done.
  intros _. repeat split; decide_member.
Qed.

Lemma kept_environment_can_be_activated_witness :
  let h := {| python3 := true; facepoke_env := true; REPLY := "n" |} in
  (setup_env h).2 = Exit 0 ∧ (activate_env h).2 = EndOfScript.
Proof.
  cbv zeta. split; [reflexivity|].
  exact (proj1 (proj2 (kept_environment_can_be_activated
           {| python3 := true; facepoke_env := true; REPLY := "n" |}
           eq_refl))).
Defined.
